(** * bfgen.c: the JVMTI capability bit-field layout probe

    A shallow embedding of [src/bitfield_gen/bfgen.c].  The C program
    writes 1 into one bit-field of a zeroed [jvmtiCapabilities] object at a
    time, dumps the nonzero bytes of the object with [dbg], and so prints
    one Rust constant per capability.  Where the compiler puts a bit-field
    is implementation-defined, so the compiler is a parameter of the model. *)

From Stdlib Require Import ZArith NArith List String Ascii Bool Lia Sorted.
From Stdlib Require Import Init.Byte Strings.Byte.
Import ListNotations.

Local Open Scope string_scope.
Local Open Scope Z_scope.

(** ** printf's [%02X] conversion and the literal it is read back as *)

Module Hex.

(** One uppercase hexadecimal digit, as [%X] prints it. *)
Definition hex_upper (d : Z) : ascii :=
  match d with
  | 0 => "0" | 1 => "1" | 2 => "2" | 3 => "3"
  | 4 => "4" | 5 => "5" | 6 => "6" | 7 => "7"
  | 8 => "8" | 9 => "9" | 10 => "A" | 11 => "B"
  | 12 => "C" | 13 => "D" | 14 => "E" | _ => "F"
  end%char.

(** The digits of [v], most significant first, without leading zeros (a
    single "0" for zero).  An [unsigned int] has at most eight of them. *)
Fixpoint hex_digits (fuel : nat) (v : Z) (acc : string) : string :=
  match fuel with
  | O => acc
  | S k =>
      let acc' := String (hex_upper (v mod 16)) acc in
      if v / 16 =? 0 then acc' else hex_digits k (v / 16) acc'
  end.

(** The flag [0] with a field width: pad on the left with zeros. *)
Definition zero_pad (width : nat) (s : string) : string :=
  string_of_list_ascii (repeat "0"%char (width - String.length s)) ++ s.

(** [%02X] applied to an [int] argument, which printf reads as a 32-bit
    [unsigned int]. *)
Definition fmt_02X (arg : Z) : string :=
  zero_pad 2 (hex_digits 8 (arg mod 2 ^ 32) "").

(** The value of one hexadecimal digit of a Rust integer literal. *)
Definition hex_value (a : ascii) : option Z :=
  let code := Z.of_nat (nat_of_ascii a) in
  if (48 <=? code) && (code <=? 57) then Some (code - 48)        (* 0-9 *)
  else if (65 <=? code) && (code <=? 70) then Some (code - 55)   (* A-F *)
  else if (97 <=? code) && (code <=? 102) then Some (code - 87)  (* a-f *)
  else None.

Fixpoint hex_number (s : string) (acc : Z) : option Z :=
  match s with
  | EmptyString => Some acc
  | String a s' =>
      match hex_value a with
      | Some d => hex_number s' (16 * acc + d)
      | None => None
      end
  end.

(** The integer a text denotes when read as a hexadecimal literal
    [0x...] with at least one digit; [None] when it is not one. *)
Definition literal_value (s : string) : option Z :=
  match s with
  | String "0" (String "x" (String a s')) => hex_number (String a s') 0
  | _ => None
  end.

End Hex.

(** ** The process: standard output, the object [cap], and [exit] *)

Module Proc.

(** What the program can change: the text written to standard output so
    far and the bytes of main's local variable [cap]. *)
Record world : Type := mkWorld {
  stdout : string;
  cap : list byte
}.

(** A computation either returns to its caller or leaves the process
    through [exit]. *)
Inductive result (A : Type) : Type :=
| Returned (a : A) (w : world)
| Exited (status : Z) (w : world).

Arguments Returned {A} a w.
Arguments Exited {A} status w.

Definition M (A : Type) : Type := world -> result A.

Definition ret {A} (a : A) : M A := fun w => Returned a w.

Definition bind {A B} (m : M A) (k : A -> M B) : M B :=
  fun w =>
    match m w with
    | Returned a w' => k a w'
    | Exited st w' => Exited st w'
    end.

Definition exit {A} (status : Z) : M A := fun w => Exited status w.

(** printf with the conversions already carried out. *)
Definition printf (text : string) : M unit :=
  fun w => Returned tt (mkWorld (stdout w ++ text) (cap w)).

Definition get_cap : M (list byte) := fun w => Returned (cap w) w.

Definition put_cap (img : list byte) : M unit :=
  fun w => Returned tt (mkWorld (stdout w) img).

Definition final_world {A} (r : result A) : world :=
  match r with
  | Returned _ w => w
  | Exited _ w => w
  end.

(** The exit status the parent process observes: the low eight bits of
    main's return value or of the argument of [exit]. *)
Definition exit_status (r : result Z) : Z :=
  match r with
  | Returned v _ => Z.land v 255
  | Exited st _ => Z.land st 255
  end.

End Proc.

Import Proc.

Declare Scope proc_scope.
Delimit Scope proc_scope with proc.
Notation "x <- m ;; k" := (bind m (fun x => k))
  (at level 61, m at next level, right associativity) : proc_scope.
Notation "m ;; k" := (bind m (fun _ => k))
  (at level 61, right associativity) : proc_scope.
Local Open Scope proc_scope.

(** ** The structure *)

(** The named bit-fields of [jvmtiCapabilities], in declaration order. *)
Inductive field : Type :=
  | can_tag_objects
  | can_generate_field_modification_events
  | can_generate_field_access_events
  | can_get_bytecodes
  | can_get_synthetic_attribute
  | can_get_owned_monitor_info
  | can_get_current_contended_monitor
  | can_get_monitor_info
  | can_pop_frame
  | can_redefine_classes
  | can_signal_thread
  | can_get_source_file_name
  | can_get_line_numbers
  | can_get_source_debug_extension
  | can_access_local_variables
  | can_maintain_original_method_order
  | can_generate_single_step_events
  | can_generate_exception_events
  | can_generate_frame_pop_events
  | can_generate_breakpoint_events
  | can_suspend
  | can_redefine_any_class
  | can_get_current_thread_cpu_time
  | can_get_thread_cpu_time
  | can_generate_method_entry_events
  | can_generate_method_exit_events
  | can_generate_all_class_hook_events
  | can_generate_compiled_method_load_events
  | can_generate_monitor_events
  | can_generate_vm_object_alloc_events
  | can_generate_native_method_bind_events
  | can_generate_garbage_collection_events
  | can_generate_object_free_events
  | can_force_early_return
  | can_get_owned_monitor_stack_depth_info
  | can_get_constant_pool
  | can_set_native_method_prefix
  | can_retransform_classes
  | can_retransform_any_class
  | can_generate_resource_exhaustion_heap_events
  | can_generate_resource_exhaustion_threads_events
  | can_generate_early_vmstart
  | can_generate_early_class_hook_events
  | can_generate_sampled_object_alloc_events
  | can_support_virtual_threads.

(** A member of the structure: a named bit-field or unnamed padding,
    with its declared width in bits. *)
Inductive member : Type :=
| Named (f : field) (width : N)
| Unnamed (width : N).

Definition jvmtiCapabilities : list member :=
  [
    Named can_tag_objects 1;
    Named can_generate_field_modification_events 1;
    Named can_generate_field_access_events 1;
    Named can_get_bytecodes 1;
    Named can_get_synthetic_attribute 1;
    Named can_get_owned_monitor_info 1;
    Named can_get_current_contended_monitor 1;
    Named can_get_monitor_info 1;
    Named can_pop_frame 1;
    Named can_redefine_classes 1;
    Named can_signal_thread 1;
    Named can_get_source_file_name 1;
    Named can_get_line_numbers 1;
    Named can_get_source_debug_extension 1;
    Named can_access_local_variables 1;
    Named can_maintain_original_method_order 1;
    Named can_generate_single_step_events 1;
    Named can_generate_exception_events 1;
    Named can_generate_frame_pop_events 1;
    Named can_generate_breakpoint_events 1;
    Named can_suspend 1;
    Named can_redefine_any_class 1;
    Named can_get_current_thread_cpu_time 1;
    Named can_get_thread_cpu_time 1;
    Named can_generate_method_entry_events 1;
    Named can_generate_method_exit_events 1;
    Named can_generate_all_class_hook_events 1;
    Named can_generate_compiled_method_load_events 1;
    Named can_generate_monitor_events 1;
    Named can_generate_vm_object_alloc_events 1;
    Named can_generate_native_method_bind_events 1;
    Named can_generate_garbage_collection_events 1;
    Named can_generate_object_free_events 1;
    Named can_force_early_return 1;
    Named can_get_owned_monitor_stack_depth_info 1;
    Named can_get_constant_pool 1;
    Named can_set_native_method_prefix 1;
    Named can_retransform_classes 1;
    Named can_retransform_any_class 1;
    Named can_generate_resource_exhaustion_heap_events 1;
    Named can_generate_resource_exhaustion_threads_events 1;
    Named can_generate_early_vmstart 1;
    Named can_generate_early_class_hook_events 1;
    Named can_generate_sampled_object_alloc_events 1;
    Named can_support_virtual_threads 1;
    Unnamed 3;
    Unnamed 16;
    Unnamed 16;
    Unnamed 16;
    Unnamed 16;
    Unnamed 16
  ].

Definition declared_fields : list field :=
  flat_map (fun m => match m with Named f _ => [f] | Unnamed _ => [] end)
           jvmtiCapabilities.

(** ** The compiler *)

(** What the C standard leaves to the implementation: the size of the
    structure, and for every bit-field the bits it occupies in each byte
    of the object ([field_bits f i] is the mask of the field inside byte
    [i]).  A conforming compiler gives a one-bit field exactly one bit;
    the record also describes layouts that do not, which the program
    never rules out. *)
Record compiler : Type := mkCompiler {
  sizeof_jvmtiCapabilities : N;
  field_bits : field -> nat -> byte
}.

Definition byte_lor (a b : byte) : byte :=
  match Byte.of_N (N.lor (Byte.to_N a) (Byte.to_N b)) with
  | Some r => r
  | None => x00
  end.

(** [cap.f = 1]: every field is one bit wide, so the store sets the bits
    of the field and leaves every other bit of the object as it was. *)
Fixpoint store_one (bits : nat -> byte) (i : nat) (img : list byte) : list byte :=
  match img with
  | [] => []
  | b :: rest => byte_lor b (bits i) :: store_one bits (S i) rest
  end.

Definition assign_one (c : compiler) (f : field) : M unit :=
  img <- get_cap ;;
  put_cap (store_one (field_bits c f) 0 img).

(** [memset(p, v, n)] on an object of at least [n] bytes. *)
Definition memset (img : list byte) (v : byte) (n : nat) : list byte :=
  repeat v n ++ skipn n img.

Definition memset_cap (c : compiler) : M unit :=
  img <- get_cap ;;
  put_cap (memset img x00 (N.to_nat (sizeof_jvmtiCapabilities c))).

(** [jvmtiCapabilities cap;] an uninitialised local: its bytes are
    whatever the stack held. *)
Definition declare_cap (c : compiler) (stack : nat -> byte) : M unit :=
  put_cap (map stack (seq 0 (N.to_nat (sizeof_jvmtiCapabilities c)))).

(** ** dbg *)

(** [for (int i = first; ...; i++)] over [count] consecutive values. *)
Fixpoint for_range (i count : nat) (body : nat -> M unit) : M unit :=
  match count with
  | O => ret tt
  | S k => body i ;; for_range (S i) k body
  end.

Definition byte_val (b : byte) : Z := Z.of_N (Byte.to_N b).

Definition dbg (n : list byte) : M unit :=
  for_range 0 16 (fun i =>
    if negb (byte_val (nth i n x00) =? 0)
    then printf ("0x" ++ Hex.fmt_02X (Z.of_nat i)
                      ++ Hex.fmt_02X (byte_val (nth i n x00)))
    else ret tt) ;;
  printf (String ";" (String "010" "")).

(** ** main *)

(** One of the repeated blocks of main: print the declaration up to the
    equals sign, zero the object, set one field, dump the object. *)
Definition probe (c : compiler) (decl : string) (f : field) : M unit :=
  printf decl ;;
  memset_cap c ;;
  assign_one c f ;;
  img <- get_cap ;;
  dbg img.

Definition main (c : compiler) (stack : nat -> byte) : M Z :=
  if negb (sizeof_jvmtiCapabilities c =? 16)%N then exit (-1) else
  declare_cap c stack ;;
  probe c "pub const OFFSET_CAN_TAG_OBJECTS : usize = "
    can_tag_objects;;
  probe c "pub const OFFSET_CAN_GENERATE_FIELD_MODIFICATION_EVENTS : usize = "
    can_generate_field_modification_events;;
  probe c "pub const OFFSET_CAN_GENERATE_FIELD_ACCESS_EVENTS : usize = "
    can_generate_field_access_events;;
  probe c "pub const OFFSET_CAN_GET_BYTECODES : usize = "
    can_get_bytecodes;;
  probe c "pub const OFFSET_CAN_GET_SYNTHETIC_ATTRIBUTE : usize = "
    can_get_synthetic_attribute;;
  probe c "pub const OFFSET_CAN_GET_OWNED_MONITOR_INFO : usize = "
    can_get_owned_monitor_info;;
  probe c "pub const OFFSET_CAN_GET_CURRENT_CONTENDED_MONITOR : usize = "
    can_get_current_contended_monitor;;
  probe c "pub const OFFSET_CAN_GET_MONITOR_INFO : usize = "
    can_get_monitor_info;;
  probe c "pub const OFFSET_CAN_POP_FRAME : usize = "
    can_pop_frame;;
  probe c "pub const OFFSET_CAN_REDEFINE_CLASSES : usize = "
    can_redefine_classes;;
  probe c "pub const OFFSET_CAN_SIGNAL_THREAD : usize = "
    can_signal_thread;;
  probe c "pub const OFFSET_CAN_GET_SOURCE_FILE_NAME : usize = "
    can_get_source_file_name;;
  probe c "pub const OFFSET_CAN_GET_LINE_NUMBERS : usize = "
    can_get_line_numbers;;
  probe c "pub const OFFSET_CAN_GET_SOURCE_DEBUG_EXTENSION : usize = "
    can_get_source_debug_extension;;
  probe c "pub const OFFSET_CAN_ACCESS_LOCAL_VARIABLES : usize = "
    can_access_local_variables;;
  probe c "pub const OFFSET_CAN_MAINTAIN_ORIGINAL_METHOD_ORDER : usize = "
    can_maintain_original_method_order;;
  probe c "pub const OFFSET_CAN_GENERATE_SINGLE_STEP_EVENTS : usize = "
    can_generate_single_step_events;;
  probe c "pub const OFFSET_CAN_GENERATE_EXCEPTION_EVENTS : usize = "
    can_generate_exception_events;;
  probe c "pub const OFFSET_CAN_GENERATE_FRAME_POP_EVENTS : usize = "
    can_generate_frame_pop_events;;
  probe c "pub const OFFSET_CAN_GENERATE_BREAKPOINT_EVENTS : usize = "
    can_generate_breakpoint_events;;
  probe c "pub const OFFSET_CAN_SUSPEND : usize = "
    can_suspend;;
  probe c "pub const OFFSET_CAN_REDEFINE_ANY_CLASS : usize = "
    can_redefine_any_class;;
  probe c "pub const OFFSET_CAN_GET_CURRENT_THREAD_CPU_TIME : usize = "
    can_get_current_thread_cpu_time;;
  probe c "pub const OFFSET_CAN_GET_THREAD_CPU_TIME : usize = "
    can_get_thread_cpu_time;;
  probe c "pub const OFFSET_CAN_GENERATE_METHOD_ENTRY_EVENTS : usize = "
    can_generate_method_entry_events;;
  probe c "pub const OFFSET_CAN_GENERATE_METHOD_EXIT_EVENTS : usize = "
    can_generate_method_exit_events;;
  probe c "pub const OFFSET_CAN_GENERATE_ALL_CLASS_HOOK_EVENTS : usize = "
    can_generate_all_class_hook_events;;
  probe c "pub const OFFSET_CAN_GENERATE_COMPILED_METHOD_LOAD_EVENTS : usize = "
    can_generate_compiled_method_load_events;;
  probe c "pub const OFFSET_CAN_GENERATE_MONITOR_EVENTS : usize = "
    can_generate_monitor_events;;
  probe c "pub const OFFSET_CAN_GENERATE_VM_OBJECT_ALLOC_EVENTS : usize = "
    can_generate_vm_object_alloc_events;;
  probe c "pub const OFFSET_CAN_GENERATE_NATIVE_METHOD_BIND_EVENTS : usize = "
    can_generate_native_method_bind_events;;
  probe c "pub const OFFSET_CAN_GENERATE_GARBAGE_COLLECTION_EVENTS : usize = "
    can_generate_garbage_collection_events;;
  probe c "pub const OFFSET_CAN_GENERATE_OBJECT_FREE_EVENTS : usize = "
    can_generate_object_free_events;;
  probe c "pub const OFFSET_CAN_FORCE_EARLY_RETURN : usize = "
    can_force_early_return;;
  probe c "pub const OFFSET_CAN_GET_OWNED_MONITOR_STACK_DEPTH_INFO : usize = "
    can_get_owned_monitor_stack_depth_info;;
  probe c "pub const OFFSET_CAN_GET_CONSTANT_POOL : usize = "
    can_get_constant_pool;;
  probe c "pub const OFFSET_CAN_SET_NATIVE_METHOD_PREFIX : usize = "
    can_set_native_method_prefix;;
  probe c "pub const OFFSET_CAN_RETRANSFORM_CLASSES : usize = "
    can_retransform_classes;;
  probe c "pub const OFFSET_CAN_RETRANSFORM_ANY_CLASS : usize = "
    can_retransform_any_class;;
  probe c "pub const OFFSET_CAN_GENERATE_RESOURCE_EXHAUSTION_HEAP_EVENTS : usize = "
    can_generate_resource_exhaustion_heap_events;;
  probe c "pub const OFFSET_CAN_GENERATE_RESOURCE_EXHAUSTION_THREAD_EVENETS : usize = "
    can_generate_resource_exhaustion_threads_events;;
  probe c "pub const OFFSET_CAN_GENERATE_EARLY_VMSTART : usize = "
    can_generate_early_vmstart;;
  probe c "pub const OFFSET_CAN_GENERATE_EARLY_CLASS_HOOK_EVENTS : usize = "
    can_generate_early_class_hook_events;;
  probe c "pub const OFFSET_CAN_GENERATE_SAMPLED_OBJECT_ALLOC_EVENTS : usize = "
    can_generate_sampled_object_alloc_events;;
  probe c "pub const OFFSET_CAN_SUPPORT_VIRTUAL_THREADS : usize = "
    can_support_virtual_threads;;
  ret 0.

Definition initial_world : world := mkWorld "" [].

Definition run_main (c : compiler) (stack : nat -> byte) : result Z :=
  main c stack initial_world.

(** ** What the program is compared with *)

(** The bytes of the object after [memset] and [cap.f = 1]. *)
Definition field_image (c : compiler) (f : field) : list byte :=
  map (field_bits c f) (seq 0 16).

(** The nonzero bytes among the first sixteen, with their offsets, in
    the order the loop of [dbg] meets them. *)
Definition scan_at (n : list byte) (i : nat) : list (nat * byte) :=
  if byte_val (nth i n x00) =? 0 then [] else [(i, nth i n x00)].

Definition scan (n : list byte) : list (nat * byte) :=
  flat_map (scan_at n) (seq 0 16).

Definition chunk (p : nat * byte) : string :=
  "0x" ++ Hex.fmt_02X (Z.of_nat (fst p)) ++ Hex.fmt_02X (byte_val (snd p)).

Fixpoint text_of (l : list string) : string :=
  match l with
  | [] => ""
  | s :: rest => s ++ text_of rest
  end.

Definition newline : ascii := "010"%char.

(** The integer literal part of what [dbg] prints, then the whole. *)
Definition dbg_literal (n : list byte) : string := text_of (map chunk (scan n)).

Definition dbg_text (n : list byte) : string :=
  dbg_literal n ++ String ";" (String newline "").

(** The spec's layout assumption: exactly one nonzero byte, and that
    byte has exactly one bit set. *)
Definition single_bit (b : byte) : bool :=
  existsb (fun k => byte_val b =? 2 ^ k) [0; 1; 2; 3; 4; 5; 6; 7].

Definition consistent (n : list byte) : bool :=
  match scan n with
  | [(_, b)] => single_bit b
  | _ => false
  end.

(** An object whose only nonzero byte is [mask] at [offset]. *)
Definition image_of (offset : nat) (mask : byte) : list byte :=
  map (fun i => if (i =? offset)%nat then mask else x00) (seq 0 16).

(** The spec's table-driven driver: a static ordered catalog of
    declaration texts and fields, walked once from first to last. *)
Definition catalog : list (string * field) :=
  [
    ("pub const OFFSET_CAN_TAG_OBJECTS : usize = ",
     can_tag_objects);
    ("pub const OFFSET_CAN_GENERATE_FIELD_MODIFICATION_EVENTS : usize = ",
     can_generate_field_modification_events);
    ("pub const OFFSET_CAN_GENERATE_FIELD_ACCESS_EVENTS : usize = ",
     can_generate_field_access_events);
    ("pub const OFFSET_CAN_GET_BYTECODES : usize = ",
     can_get_bytecodes);
    ("pub const OFFSET_CAN_GET_SYNTHETIC_ATTRIBUTE : usize = ",
     can_get_synthetic_attribute);
    ("pub const OFFSET_CAN_GET_OWNED_MONITOR_INFO : usize = ",
     can_get_owned_monitor_info);
    ("pub const OFFSET_CAN_GET_CURRENT_CONTENDED_MONITOR : usize = ",
     can_get_current_contended_monitor);
    ("pub const OFFSET_CAN_GET_MONITOR_INFO : usize = ",
     can_get_monitor_info);
    ("pub const OFFSET_CAN_POP_FRAME : usize = ",
     can_pop_frame);
    ("pub const OFFSET_CAN_REDEFINE_CLASSES : usize = ",
     can_redefine_classes);
    ("pub const OFFSET_CAN_SIGNAL_THREAD : usize = ",
     can_signal_thread);
    ("pub const OFFSET_CAN_GET_SOURCE_FILE_NAME : usize = ",
     can_get_source_file_name);
    ("pub const OFFSET_CAN_GET_LINE_NUMBERS : usize = ",
     can_get_line_numbers);
    ("pub const OFFSET_CAN_GET_SOURCE_DEBUG_EXTENSION : usize = ",
     can_get_source_debug_extension);
    ("pub const OFFSET_CAN_ACCESS_LOCAL_VARIABLES : usize = ",
     can_access_local_variables);
    ("pub const OFFSET_CAN_MAINTAIN_ORIGINAL_METHOD_ORDER : usize = ",
     can_maintain_original_method_order);
    ("pub const OFFSET_CAN_GENERATE_SINGLE_STEP_EVENTS : usize = ",
     can_generate_single_step_events);
    ("pub const OFFSET_CAN_GENERATE_EXCEPTION_EVENTS : usize = ",
     can_generate_exception_events);
    ("pub const OFFSET_CAN_GENERATE_FRAME_POP_EVENTS : usize = ",
     can_generate_frame_pop_events);
    ("pub const OFFSET_CAN_GENERATE_BREAKPOINT_EVENTS : usize = ",
     can_generate_breakpoint_events);
    ("pub const OFFSET_CAN_SUSPEND : usize = ",
     can_suspend);
    ("pub const OFFSET_CAN_REDEFINE_ANY_CLASS : usize = ",
     can_redefine_any_class);
    ("pub const OFFSET_CAN_GET_CURRENT_THREAD_CPU_TIME : usize = ",
     can_get_current_thread_cpu_time);
    ("pub const OFFSET_CAN_GET_THREAD_CPU_TIME : usize = ",
     can_get_thread_cpu_time);
    ("pub const OFFSET_CAN_GENERATE_METHOD_ENTRY_EVENTS : usize = ",
     can_generate_method_entry_events);
    ("pub const OFFSET_CAN_GENERATE_METHOD_EXIT_EVENTS : usize = ",
     can_generate_method_exit_events);
    ("pub const OFFSET_CAN_GENERATE_ALL_CLASS_HOOK_EVENTS : usize = ",
     can_generate_all_class_hook_events);
    ("pub const OFFSET_CAN_GENERATE_COMPILED_METHOD_LOAD_EVENTS : usize = ",
     can_generate_compiled_method_load_events);
    ("pub const OFFSET_CAN_GENERATE_MONITOR_EVENTS : usize = ",
     can_generate_monitor_events);
    ("pub const OFFSET_CAN_GENERATE_VM_OBJECT_ALLOC_EVENTS : usize = ",
     can_generate_vm_object_alloc_events);
    ("pub const OFFSET_CAN_GENERATE_NATIVE_METHOD_BIND_EVENTS : usize = ",
     can_generate_native_method_bind_events);
    ("pub const OFFSET_CAN_GENERATE_GARBAGE_COLLECTION_EVENTS : usize = ",
     can_generate_garbage_collection_events);
    ("pub const OFFSET_CAN_GENERATE_OBJECT_FREE_EVENTS : usize = ",
     can_generate_object_free_events);
    ("pub const OFFSET_CAN_FORCE_EARLY_RETURN : usize = ",
     can_force_early_return);
    ("pub const OFFSET_CAN_GET_OWNED_MONITOR_STACK_DEPTH_INFO : usize = ",
     can_get_owned_monitor_stack_depth_info);
    ("pub const OFFSET_CAN_GET_CONSTANT_POOL : usize = ",
     can_get_constant_pool);
    ("pub const OFFSET_CAN_SET_NATIVE_METHOD_PREFIX : usize = ",
     can_set_native_method_prefix);
    ("pub const OFFSET_CAN_RETRANSFORM_CLASSES : usize = ",
     can_retransform_classes);
    ("pub const OFFSET_CAN_RETRANSFORM_ANY_CLASS : usize = ",
     can_retransform_any_class);
    ("pub const OFFSET_CAN_GENERATE_RESOURCE_EXHAUSTION_HEAP_EVENTS : usize = ",
     can_generate_resource_exhaustion_heap_events);
    ("pub const OFFSET_CAN_GENERATE_RESOURCE_EXHAUSTION_THREAD_EVENETS : usize = ",
     can_generate_resource_exhaustion_threads_events);
    ("pub const OFFSET_CAN_GENERATE_EARLY_VMSTART : usize = ",
     can_generate_early_vmstart);
    ("pub const OFFSET_CAN_GENERATE_EARLY_CLASS_HOOK_EVENTS : usize = ",
     can_generate_early_class_hook_events);
    ("pub const OFFSET_CAN_GENERATE_SAMPLED_OBJECT_ALLOC_EVENTS : usize = ",
     can_generate_sampled_object_alloc_events);
    ("pub const OFFSET_CAN_SUPPORT_VIRTUAL_THREADS : usize = ",
     can_support_virtual_threads)
  ].

Fixpoint drive (c : compiler) (l : list (string * field)) (k : M Z) : M Z :=
  match l with
  | [] => k
  | (decl, f) :: rest => probe c decl f ;; drive c rest k
  end.

Definition table_driven_main (c : compiler) (stack : nat -> byte) : M Z :=
  if negb (sizeof_jvmtiCapabilities c =? 16)%N then exit (-1) else
  declare_cap c stack ;;
  drive c catalog (ret 0).

Definition line (c : compiler) (e : string * field) : string :=
  fst e ++ dbg_text (field_image c (snd e)).

Definition lines (c : compiler) (l : list (string * field)) : string :=
  text_of (map (line c) l).

(** The object the table-driven driver leaves behind. *)
Definition last_image (c : compiler) (l : list (string * field))
    (img : list byte) : list byte :=
  fold_left (fun _ e => field_image c (snd e)) l img.

Fixpoint count_char (a : ascii) (s : string) : nat :=
  match s with
  | EmptyString => O
  | String b s' => ((if Ascii.eqb a b then 1 else 0) + count_char a s')%nat
  end.





(** The spec's count of the catalog. *)
Definition forty_four_lines (c : compiler) (stack : nat -> byte) : Prop :=
  List.length catalog = 44%nat /\
  count_char newline (stdout (final_world (run_main c stack))) = 44%nat.

(** ** Compilers the program is run on *)

Scheme Equality for field.

Fixpoint index_of (f : field) (l : list field) : nat :=
  match l with
  | [] => O
  | g :: rest => if field_beq f g then O else S (index_of f rest)
  end.

Definition byte_of_Z (v : Z) : byte :=
  match Byte.of_N (Z.to_N v) with
  | Some b => b
  | None => x00
  end.

(** Fields allocated in declaration order from the least significant bit
    of each byte, as gcc and clang do on little-endian targets. *)
Definition lsb_first : compiler :=
  mkCompiler 16 (fun f i =>
    let k := index_of f declared_fields in
    if (i =? k / 8)%nat then byte_of_Z (2 ^ Z.of_nat (k mod 8)) else x00).

(** The same from the most significant bit, as on big-endian targets. *)
Definition msb_first : compiler :=
  mkCompiler 16 (fun f i =>
    let k := index_of f declared_fields in
    if (i =? k / 8)%nat then byte_of_Z (2 ^ Z.of_nat (7 - k mod 8)) else x00).

(** A target whose allocation unit makes the structure 24 bytes. *)
Definition wide_units : compiler :=
  mkCompiler 24 (field_bits lsb_first).

(** A layout that breaks the one-bit-per-flag assumption in each of the
    three ways: the first field has no storage, the second straddles
    bytes 0 and 1, the third has two bits in byte 0. *)
Definition odd_layout : compiler :=
  mkCompiler 16 (fun f i =>
    match f with
    | can_tag_objects => x00
    | can_generate_field_modification_events =>
        match i with O => x80 | 1%nat => x01 | _ => x00 end
    | can_generate_field_access_events =>
        match i with O => x06 | _ => x00 end
    | _ => field_bits lsb_first f i
    end).

(** A conforming layout in general: field [f] is the single bit number
    [pos f] of the object, that is bit [pos f mod 8] of byte [pos f / 8]. *)
Definition layout_compiler (pos : field -> nat) : compiler :=
  mkCompiler 16 (fun f i =>
    if (i =? pos f / 8)%nat then byte_of_Z (2 ^ Z.of_nat (pos f mod 8))
    else x00).

Definition zero_stack : nat -> byte := fun _ => x00.
Definition dirty_stack : nat -> byte := fun i => byte_of_Z (Z.of_nat (255 - i)).

(** * Properties *)

(** ** Strings *)

Lemma append_assoc (a b c : string) : (a ++ b) ++ c = a ++ (b ++ c).
Proof.
  induction a as [|x a IH]; simpl; [reflexivity | now rewrite IH].
Qed.

Lemma append_nil_r (a : string) : a ++ "" = a.
Proof.
  induction a as [|x a IH]; simpl; [reflexivity | now rewrite IH].
Qed.

Lemma append_inj_l (s a b : string) : s ++ a = s ++ b -> a = b.
Proof.
  induction s as [|x s IH]; simpl; intros H; [exact H|].
  apply IH. now inversion H.
Qed.

Lemma text_of_app (l1 l2 : list string) :
  text_of (l1 ++ l2)%list = text_of l1 ++ text_of l2.
Proof.
  induction l1 as [|s l1 IH]; simpl; [reflexivity|].
  now rewrite IH, append_assoc.
Qed.

Lemma count_char_app (a : ascii) (s t : string) :
  count_char a (s ++ t) = (count_char a s + count_char a t)%nat.
Proof.
  induction s as [|x s IH]; simpl; [reflexivity | rewrite IH; lia].
Qed.

(** ** Bytes and the object *)

Lemma byte_lor_zero_l (b : byte) : byte_lor x00 b = b.
Proof. destruct b; reflexivity. Qed.

Lemma byte_val_range (b : byte) : 0 <= byte_val b < 256.
Proof.
  unfold byte_val. pose proof (Byte.to_N_bounded b). lia.
Qed.

Lemma byte_val_zero (b : byte) : byte_val b = 0 <-> b = x00.
Proof.
  split; [|intros ->; reflexivity].
  destruct b; intros H; try reflexivity; discriminate H.
Qed.

Lemma store_one_zeroed (bits : nat -> byte) (n i : nat) :
  store_one bits i (repeat x00 n) = map bits (seq i n).
Proof.
  revert i; induction n as [|n IH]; intros i; simpl; [reflexivity|].
  now rewrite byte_lor_zero_l, IH.
Qed.

Lemma memset_exact (img : list byte) (v : byte) (n : nat) :
  List.length img = n -> memset img v n = repeat v n.
Proof.
  intros H. unfold memset.
  rewrite skipn_all2 by lia. apply app_nil_r.
Qed.

Lemma field_image_nth (c : compiler) (f : field) (i : nat) :
  (i < 16)%nat -> nth i (field_image c f) x00 = field_bits c f i.
Proof.
  intros H. unfold field_image.
  rewrite nth_indep with (d' := field_bits c f 0%nat)
    by (rewrite length_map, length_seq; exact H).
  rewrite map_nth with (f := field_bits c f).
  now rewrite seq_nth.
Qed.

(** ** Running the program *)

Lemma for_range_text (text : nat -> string) (body : nat -> M unit) :
  (forall i w, body i w = Returned tt (mkWorld (stdout w ++ text i) (cap w))) ->
  forall count i w,
    for_range i count body w =
    Returned tt (mkWorld (stdout w ++ text_of (map text (seq i count))) (cap w)).
Proof.
  intros Hbody. induction count as [|k IH]; intros i w; simpl.
  - unfold ret. rewrite append_nil_r. now destruct w.
  - unfold bind. rewrite Hbody, IH. simpl. now rewrite append_assoc.
Qed.

Lemma scan_text (n : list byte) (l : list nat) :
  text_of (map (fun i => if byte_val (nth i n x00) =? 0 then ""
                         else chunk (i, nth i n x00)) l) =
  text_of (map chunk (flat_map (scan_at n) l)).
Proof.
  induction l as [|i l IH]; simpl; [reflexivity|].
  rewrite IH. unfold scan_at.
  destruct (byte_val (nth i n x00) =? 0); simpl; reflexivity.
Qed.

(** [dbg] returns, leaves the object alone and appends [dbg_text]. *)
Lemma dbg_run (n : list byte) (w : world) :
  dbg n w = Returned tt (mkWorld (stdout w ++ dbg_text n) (cap w)).
Proof.
  unfold dbg, bind.
  rewrite for_range_text with
    (text := fun i => if byte_val (nth i n x00) =? 0 then ""
                      else chunk (i, nth i n x00)).
  - unfold printf. simpl stdout. simpl cap.
    rewrite append_assoc. unfold dbg_text, dbg_literal, scan.
    now rewrite <- scan_text.
  - intros i w'. destruct (byte_val (nth i n x00) =? 0); simpl.
    + unfold ret. rewrite append_nil_r. now destruct w'.
    + reflexivity.
Qed.

(** One block of main, from any state of the object and the output. *)
Lemma probe_run (c : compiler) (decl : string) (f : field) (w : world) :
  sizeof_jvmtiCapabilities c = 16%N ->
  List.length (cap w) = 16%nat ->
  probe c decl f w =
  Returned tt (mkWorld (stdout w ++ decl ++ dbg_text (field_image c f))
                       (field_image c f)).
Proof.
  intros Hsize Hlen.
  unfold probe, bind, printf, memset_cap, assign_one, bind, get_cap, put_cap.
  simpl. rewrite Hsize. change (N.to_nat 16) with 16%nat.
  rewrite memset_exact by exact Hlen.
  rewrite store_one_zeroed, dbg_run. simpl.
  now rewrite append_assoc.
Qed.

Lemma drive_run (c : compiler) (l : list (string * field)) (w : world) :
  sizeof_jvmtiCapabilities c = 16%N ->
  List.length (cap w) = 16%nat ->
  drive c l (ret 0) w =
  Returned 0 (mkWorld (stdout w ++ lines c l) (last_image c l (cap w))).
Proof.
  intros Hsize. revert w.
  induction l as [|[decl f] l IH]; intros w Hlen; simpl.
  - unfold ret, lines. simpl. rewrite append_nil_r. now destruct w.
  - unfold bind. rewrite probe_run by assumption.
    rewrite IH by reflexivity. simpl.
    unfold lines, line. simpl. now rewrite !append_assoc.
Qed.

(** main is the table-driven driver over [catalog]. *)
Lemma main_table_driven (c : compiler) (stack : nat -> byte) :
  main c stack = table_driven_main c stack.
Proof. reflexivity. Qed.

Lemma main_run_ok (c : compiler) (stack : nat -> byte) :
  sizeof_jvmtiCapabilities c = 16%N ->
  run_main c stack =
  Returned 0 (mkWorld (lines c catalog)
                      (field_image c can_support_virtual_threads)).
Proof.
  intros Hsize. unfold run_main. rewrite main_table_driven.
  unfold table_driven_main. rewrite Hsize.
  change (negb (16 =? 16)%N) with false. cbv iota.
  unfold bind at 1. unfold declare_cap, put_cap.
  rewrite drive_run.
  - reflexivity.
  - exact Hsize.
  - simpl cap. rewrite length_map, length_seq, Hsize. reflexivity.
Qed.

Lemma main_run_mismatch (c : compiler) (stack : nat -> byte) :
  sizeof_jvmtiCapabilities c <> 16%N ->
  run_main c stack = Exited (-1) initial_world.
Proof.
  intros Hsize. unfold run_main, main.
  destruct (N.eqb_spec (sizeof_jvmtiCapabilities c) 16) as [E|_];
    [contradiction | reflexivity].
Qed.

(** ** What [dbg] finds *)

Lemma scan_spec (n : list byte) (i : nat) (b : byte) :
  In (i, b) (scan n) <-> (i < 16)%nat /\ nth i n x00 = b /\ b <> x00.
Proof.
  unfold scan. rewrite in_flat_map. split.
  - intros [j [Hj Hin]]. apply in_seq in Hj. unfold scan_at in Hin.
    destruct (Z.eqb_spec (byte_val (nth j n x00)) 0) as [E|E];
      simpl in Hin; [contradiction|].
    destruct Hin as [Hin|[]]. inversion Hin; subst.
    repeat split; [lia|]. intros Hz. apply E. now rewrite Hz.
  - intros (Hi & Hb & Hnz). exists i. split; [apply in_seq; lia|].
    unfold scan_at.
    destruct (Z.eqb_spec (byte_val (nth i n x00)) 0) as [E|E].
    + apply byte_val_zero in E. congruence.
    + left. now rewrite Hb.
Qed.

Lemma scan_from_sorted (n : list byte) (count first : nat) :
  StronglySorted lt (map fst (flat_map (scan_at n) (seq first count))).
Proof.
  revert first. induction count as [|k IH]; intros first; simpl.
  - constructor.
  - unfold scan_at at 1.
    destruct (byte_val (nth first n x00) =? 0); simpl; [apply IH|].
    constructor; [apply IH|].
    apply Forall_forall. intros j Hj.
    apply in_map_iff in Hj. destruct Hj as [[j' b] [Hfst Hin]].
    simpl in Hfst. subst j'.
    apply in_flat_map in Hin. destruct Hin as [m [Hm Hin]].
    apply in_seq in Hm. unfold scan_at in Hin.
    destruct (byte_val (nth m n x00) =? 0); simpl in Hin; [contradiction|].
    destruct Hin as [Hin|[]]. inversion Hin; subst. lia.
Qed.

Lemma scan_image_of (offset : nat) (mask : byte) :
  (offset < 16)%nat -> mask <> x00 ->
  scan (image_of offset mask) = [(offset, mask)].
Proof.
  intros Hoff Hmask.
  assert (Hnz : (byte_val mask =? 0) = false).
  { apply Z.eqb_neq. intros E. now apply byte_val_zero in E. }
  unfold scan, image_of, scan_at.
  do 16 (destruct offset as [|offset];
         [cbn [seq map flat_map nth Nat.eqb app];
          change (byte_val x00 =? 0) with true; cbv iota;
          rewrite Hnz; reflexivity|]).
  lia.
Qed.

Lemma scan_zero (n : list byte) :
  (forall i, (i < 16)%nat -> nth i n x00 = x00) -> scan n = [].
Proof.
  intros Hz. destruct (scan n) as [|[i b] rest] eqn:E; [reflexivity|].
  assert (Hin : In (i, b) (scan n)) by (rewrite E; now left).
  apply scan_spec in Hin. destruct Hin as (Hi & Hb & Hnz).
  rewrite Hz in Hb by exact Hi. congruence.
Qed.

(** ** Hexadecimal text *)

Lemma fmt_02X_byte (b : byte) :
  Hex.fmt_02X (byte_val b) =
  String (Hex.hex_upper (byte_val b / 16))
         (String (Hex.hex_upper (byte_val b mod 16)) "").
Proof. destruct b; reflexivity. Qed.

Lemma fmt_02X_offset (i : nat) :
  (i < 16)%nat ->
  Hex.fmt_02X (Z.of_nat i) =
  String "0" (String (Hex.hex_upper (Z.of_nat i)) "").
Proof.
  intros H. do 16 (destruct i as [|i]; [reflexivity|]). lia.
Qed.

Lemma hex_value_upper (d : Z) :
  0 <= d < 16 -> Hex.hex_value (Hex.hex_upper d) = Some d.
Proof.
  intros H.
  assert (E : d = 0 \/ d = 1 \/ d = 2 \/ d = 3 \/ d = 4 \/ d = 5 \/ d = 6
              \/ d = 7 \/ d = 8 \/ d = 9 \/ d = 10 \/ d = 11 \/ d = 12
              \/ d = 13 \/ d = 14 \/ d = 15) by lia.
  repeat (destruct E as [E|E]; [subst d; reflexivity|]).
  subst d; reflexivity.
Qed.

Lemma hex_upper_not_newline (d : Z) :
  Ascii.eqb newline (Hex.hex_upper d) = false.
Proof.
  unfold Hex.hex_upper.
  repeat match goal with
         | |- context [match ?x with _ => _ end] => destruct x
         end; reflexivity.
Qed.

(** A chunk is [0x] and four digits: two for the offset, two for the
    byte. *)
Lemma chunk_digits (i : nat) (b : byte) :
  (i < 16)%nat ->
  chunk (i, b) =
  String "0" (String "x"
    (String "0" (String (Hex.hex_upper (Z.of_nat i))
    (String (Hex.hex_upper (byte_val b / 16))
            (String (Hex.hex_upper (byte_val b mod 16)) ""))))).
Proof.
  intros H. unfold chunk. simpl fst. simpl snd.
  now rewrite fmt_02X_offset, fmt_02X_byte.
Qed.

Lemma chunk_value (i : nat) (b : byte) :
  (i < 16)%nat ->
  Hex.literal_value (chunk (i, b)) = Some (256 * Z.of_nat i + byte_val b).
Proof.
  intros H. rewrite chunk_digits by exact H.
  pose proof (byte_val_range b) as Hb.
  unfold Hex.literal_value.
  cbn [Hex.hex_number].
  change (Hex.hex_value "0") with (Some 0).
  assert (Hhi : 0 <= byte_val b / 16 < 16)
    by (split; [apply Z.div_pos | apply Z.div_lt_upper_bound]; lia).
  assert (Hlo : 0 <= byte_val b mod 16 < 16)
    by (apply Z.mod_pos_bound; lia).
  rewrite (hex_value_upper (Z.of_nat i)) by lia.
  rewrite (hex_value_upper (byte_val b / 16)) by exact Hhi.
  rewrite (hex_value_upper (byte_val b mod 16)) by exact Hlo.
  f_equal. pose proof (Z.div_mod (byte_val b) 16). lia.
Qed.

Lemma lor_shiftl_8 (a m : Z) :
  0 <= m < 256 -> Z.lor (Z.shiftl a 8) m = 256 * a + m.
Proof.
  intros Hm.
  assert (Hland : Z.land (Z.shiftl a 8) m = 0).
  { apply Z.bits_inj'. intros k Hk.
    rewrite Z.land_spec, Z.bits_0.
    destruct (Z.lt_ge_cases k 8) as [Hlt|Hge].
    - rewrite Z.shiftl_spec_low by exact Hlt. reflexivity.
    - destruct (Z.eq_dec m 0) as [->|Hnz].
      + rewrite Z.bits_0. apply andb_false_r.
      + rewrite (Z.bits_above_log2 m k); [apply andb_false_r|lia|].
        assert (Z.log2 m < 8) by (apply Z.log2_lt_pow2; lia). lia. }
  rewrite <- Z.lxor_lor by exact Hland.
  rewrite <- Z.add_nocarry_lxor by exact Hland.
  rewrite Z.shiftl_mul_pow2 by lia. lia.
Qed.

Lemma count_newline_chunk (i : nat) (b : byte) :
  (i < 16)%nat -> count_char newline (chunk (i, b)) = 0%nat.
Proof.
  intros H. rewrite chunk_digits by exact H.
  cbn [count_char]. rewrite !hex_upper_not_newline. reflexivity.
Qed.

Lemma count_newline_dbg_text (n : list byte) :
  count_char newline (dbg_text n) = 1%nat.
Proof.
  unfold dbg_text. rewrite count_char_app.
  assert (H : count_char newline (dbg_literal n) = 0%nat).
  { unfold dbg_literal.
    assert (Hall : forall p, In p (scan n) -> (fst p < 16)%nat).
    { intros [i b] Hin. apply scan_spec in Hin. simpl. tauto. }
    induction (scan n) as [|[i b] l IH]; cbn [map text_of]; [reflexivity|].
    rewrite count_char_app, count_newline_chunk, IH.
    - reflexivity.
    - intros p Hp. apply Hall. now right.
    - apply (Hall (i, b)). now left. }
  rewrite H. reflexivity.
Qed.

Lemma lines_app (c : compiler) (l1 l2 : list (string * field)) :
  lines c (l1 ++ l2) = lines c l1 ++ lines c l2.
Proof.
  unfold lines. now rewrite map_app, text_of_app.
Qed.

Lemma lines_cons (c : compiler) (e : string * field) (l : list (string * field)) :
  lines c (e :: l) = line c e ++ lines c l.
Proof. reflexivity. Qed.

Lemma count_newline_lines (c : compiler) (l : list (string * field)) :
  forallb (fun e => Nat.eqb (count_char newline (fst e)) 0) l = true ->
  count_char newline (lines c l) = List.length l.
Proof.
  induction l as [|e l IH]; intros H; [reflexivity|].
  simpl in H. apply andb_prop in H. destruct H as [He Hl].
  apply Nat.eqb_eq in He.
  rewrite lines_cons, count_char_app. unfold line at 1.
  rewrite count_char_app, He, count_newline_dbg_text, IH by exact Hl.
  reflexivity.
Qed.

Lemma catalog_decls_one_line :
  forallb (fun e => Nat.eqb (count_char newline (fst e)) 0) catalog = true.
Proof. vm_compute. reflexivity. Qed.

Lemma single_bit_nonzero (b : byte) : single_bit b = true -> b <> x00.
Proof. intros H ->. vm_compute in H. discriminate H. Qed.

(** * The claims *)

(** C2: when the size of the structure is not 16 the program exits with a
    nonzero status and has written nothing to standard output; when the
    size is 16 every flag is probed and the exit status is zero. *)
Theorem size_check_decides_exit (c : compiler) (stack : nat -> byte) :
  (sizeof_jvmtiCapabilities c <> 16%N ->
   exit_status (run_main c stack) <> 0 /\
   stdout (final_world (run_main c stack)) = "") /\
  (sizeof_jvmtiCapabilities c = 16%N ->
   exit_status (run_main c stack) = 0 /\
   stdout (final_world (run_main c stack)) = lines c catalog).
Proof.
  split; intros Hsize.
  - rewrite main_run_mismatch by exact Hsize. split; [discriminate | reflexivity].
  - rewrite main_run_ok by exact Hsize. split; reflexivity.
Qed.

Lemma size_check_decides_exit_witness :
  (sizeof_jvmtiCapabilities wide_units <> 16%N /\
   exit_status (run_main wide_units dirty_stack) <> 0 /\
   stdout (final_world (run_main wide_units dirty_stack)) = "") /\
  (sizeof_jvmtiCapabilities lsb_first = 16%N /\
   exit_status (run_main lsb_first dirty_stack) = 0 /\
   stdout (final_world (run_main lsb_first dirty_stack)) = lines lsb_first catalog).
Proof.
  split.
  - split; [discriminate|].
    apply (proj1 (size_check_decides_exit wide_units dirty_stack)).
    discriminate.
  - split; [reflexivity|].
    apply (proj2 (size_check_decides_exit lsb_first dirty_stack)).
    reflexivity.
Defined.

(** C10: the program ends in one of two ways only.  On a size mismatch
    it calls exit(-1), which the parent sees as status 255; otherwise it
    returns 0 from main after the last flag, whatever bytes were scanned. *)
Theorem two_exit_paths (c : compiler) (stack : nat -> byte) :
  (sizeof_jvmtiCapabilities c <> 16%N /\
   run_main c stack = Exited (-1) initial_world /\
   exit_status (run_main c stack) = 255) \/
  (sizeof_jvmtiCapabilities c = 16%N /\
   run_main c stack =
     Returned 0 (mkWorld (lines c catalog)
                         (field_image c can_support_virtual_threads)) /\
   exit_status (run_main c stack) = 0).
Proof.
  destruct (N.eq_dec (sizeof_jvmtiCapabilities c) 16) as [Hsize|Hsize].
  - right. rewrite main_run_ok by exact Hsize. repeat split. exact Hsize.
  - left. rewrite main_run_mismatch by exact Hsize. repeat split. exact Hsize.
Qed.

(** C6: with the compiler fixed, two runs give the same result, and so
    the same encoded constant for every flag, whatever the uninitialised
    object held when each run started. *)
Theorem runs_agree (c : compiler) (stack1 stack2 : nat -> byte) :
  run_main c stack1 = run_main c stack2 /\
  stdout (final_world (run_main c stack1)) =
  stdout (final_world (run_main c stack2)) /\
  exit_status (run_main c stack1) = exit_status (run_main c stack2).
Proof.
  assert (H : run_main c stack1 = run_main c stack2).
  { destruct (N.eq_dec (sizeof_jvmtiCapabilities c) 16) as [Hsize|Hsize].
    - now rewrite !main_run_ok by exact Hsize.
    - now rewrite !main_run_mismatch by exact Hsize. }
  rewrite H. repeat split.
Qed.

(** C5: each block of main first zeroes the whole object, then sets one
    field, and only then scans; the bytes scanned are exactly the bits of
    that field, and neither they nor the text printed for the flag depend
    on the state any earlier block left behind. *)
Theorem probe_starts_from_zero (c : compiler) (decl : string) (f : field)
    (w w' : world) :
  sizeof_jvmtiCapabilities c = 16%N ->
  List.length (cap w) = 16%nat ->
  List.length (cap w') = 16%nat ->
  (printf decl ;; memset_cap c) w =
    Returned tt (mkWorld (stdout w ++ decl) (repeat x00 16)) /\
  probe c decl f w =
    Returned tt (mkWorld (stdout w ++ decl ++ dbg_text (field_image c f))
                         (field_image c f)) /\
  (forall i, (i < 16)%nat -> nth i (field_image c f) x00 = field_bits c f i) /\
  cap (final_world (probe c decl f w')) = cap (final_world (probe c decl f w)) /\
  (forall out, stdout (final_world (probe c decl f w)) = stdout w ++ out ->
               stdout (final_world (probe c decl f w')) = stdout w' ++ out).
Proof.
  intros Hsize Hlen Hlen'. split; [|split; [|split; [|split]]].
  - unfold bind, printf, memset_cap, bind, get_cap, put_cap. simpl.
    rewrite Hsize. change (N.to_nat 16) with 16%nat.
    now rewrite memset_exact by exact Hlen.
  - apply probe_run; assumption.
  - intros i Hi. apply field_image_nth, Hi.
  - now rewrite !probe_run by assumption.
  - intros out. rewrite !probe_run by assumption. simpl.
    intros H. apply append_inj_l in H. now rewrite H.
Qed.

Lemma probe_starts_from_zero_witness :
  probe lsb_first "pub const OFFSET_CAN_POP_FRAME : usize = " can_pop_frame
        (mkWorld "earlier" (map dirty_stack (seq 0 16))) =
  Returned tt
    (mkWorld ("earlier" ++ "pub const OFFSET_CAN_POP_FRAME : usize = "
                        ++ "0x0101;" ++ String newline "")
             [x00; x01; x00; x00; x00; x00; x00; x00;
              x00; x00; x00; x00; x00; x00; x00; x00]).
Proof.
  exact (proj1 (proj2
    (probe_starts_from_zero lsb_first
       "pub const OFFSET_CAN_POP_FRAME : usize = " can_pop_frame
       (mkWorld "earlier" (map dirty_stack (seq 0 16)))
       (mkWorld "" (map zero_stack (seq 0 16)))
       eq_refl eq_refl eq_refl))).
Defined.

(** C3: for a byte offset below 16 and a single-bit mask, [dbg] prints
    one literal, and read as a hexadecimal integer it is
    (offset << 8) | mask; for offset 2 and mask 0x08 it is 0x0208. *)
Theorem emitted_literal_encodes_fact (offset : nat) (mask : byte) (w : world) :
  (offset < 16)%nat ->
  single_bit mask = true ->
  dbg (image_of offset mask) w =
    Returned tt (mkWorld (stdout w ++ chunk (offset, mask)
                                   ++ String ";" (String newline ""))
                         (cap w)) /\
  Hex.literal_value (chunk (offset, mask)) =
    Some (Z.lor (Z.shiftl (Z.of_nat offset) 8) (byte_val mask)) /\
  (chunk (2%nat, x08) = "0x0208" /\
   Hex.literal_value "0x0208" = Some 0x0208).
Proof.
  intros Hoff Hbit. split; [|split; [|split; reflexivity]].
  - rewrite dbg_run. unfold dbg_text, dbg_literal.
    rewrite scan_image_of by (try apply single_bit_nonzero; assumption).
    cbn [map text_of]. now rewrite append_nil_r.
  - rewrite chunk_value by exact Hoff.
    now rewrite lor_shiftl_8 by apply byte_val_range.
Qed.

Lemma emitted_literal_encodes_fact_witness :
  (5 < 16)%nat /\ single_bit x40 = true /\
  dbg (image_of 5 x40) initial_world =
    Returned tt (mkWorld ("0x0540;" ++ String newline "") []) /\
  Hex.literal_value "0x0540" = Some (Z.lor (Z.shiftl 5 8) 0x40).
Proof.
  split; [lia|]. split; [reflexivity|].
  pose proof (emitted_literal_encodes_fact 5 x40 initial_world
                ltac:(lia) eq_refl) as [Hrun [Hval _]].
  split; [exact Hrun | exact Hval].
Defined.

(** C7: on a compiler that puts can_tag_objects, the first flag of the
    catalog, at bit 0 of byte 0, the probe finds offset 0 with mask 0x01
    and the first line printed carries the literal 0x0001. *)
Theorem first_flag_reads_0x0001 (c : compiler) (stack : nat -> byte) :
  sizeof_jvmtiCapabilities c = 16%N ->
  field_image c can_tag_objects = image_of 0 x01 ->
  hd_error declared_fields = Some can_tag_objects /\
  scan (field_image c can_tag_objects) = [(0%nat, x01)] /\
  Hex.literal_value (dbg_literal (field_image c can_tag_objects)) =
    Some 0x0001 /\
  stdout (final_world (run_main c stack)) =
    ("pub const OFFSET_CAN_TAG_OBJECTS : usize = 0x0001;"
       ++ String newline "") ++ lines c (tl catalog).
Proof.
  intros Hsize Himg. split; [reflexivity|].
  assert (Hscan : scan (field_image c can_tag_objects) = [(0%nat, x01)])
    by (rewrite Himg; reflexivity).
  split; [exact Hscan|]. split.
  - unfold dbg_literal. rewrite Hscan. reflexivity.
  - rewrite main_run_ok by exact Hsize. simpl final_world. simpl stdout.
    change catalog with (hd ("", can_tag_objects) catalog :: tl catalog) at 1.
    rewrite lines_cons. f_equal.
    unfold line, dbg_text, dbg_literal. cbn [hd catalog fst snd].
    rewrite Hscan. reflexivity.
Qed.

Lemma first_flag_reads_0x0001_witness :
  sizeof_jvmtiCapabilities lsb_first = 16%N /\
  field_image lsb_first can_tag_objects = image_of 0 x01 /\
  scan (field_image lsb_first can_tag_objects) = [(0%nat, x01)] /\
  stdout (final_world (run_main lsb_first dirty_stack)) =
    ("pub const OFFSET_CAN_TAG_OBJECTS : usize = 0x0001;"
       ++ String newline "") ++ lines lsb_first (tl catalog).
Proof.
  split; [reflexivity|]. split; [reflexivity|].
  pose proof (first_flag_reads_0x0001 lsb_first dirty_stack eq_refl eq_refl)
    as [_ [Hscan [_ Hout]]].
  split; [exact Hscan | exact Hout].
Defined.

(** C4, as the spec counts it: 44 iterations and 44 lines.  On the
    little-endian compiler the run prints 45 lines, one for each of the 45
    bit-fields the structure declares. *)
Lemma forty_four_lines_counterexample :
  List.length declared_fields = 45%nat /\
  count_char newline (stdout (final_world (run_main lsb_first zero_stack)))
    = 45%nat /\
  ~ forty_four_lines lsb_first zero_stack.
Proof.
  split; [reflexivity|]. split; [vm_compute; reflexivity|].
  unfold forty_four_lines. intros [_ Hrun]. vm_compute in Hrun.
  discriminate Hrun.
Qed.

(** C4, amended: main is the table-driven driver over a catalog of 45
    entries whose fields are the named bit-fields of the structure in
    declaration order, each once; the output is one line per entry in
    that order, 45 lines in all. *)
Theorem driver_walks_catalog_once (c : compiler) (stack : nat -> byte) :
  sizeof_jvmtiCapabilities c = 16%N ->
  main c stack = table_driven_main c stack /\
  List.length catalog = 45%nat /\
  map snd catalog = declared_fields /\
  NoDup declared_fields /\
  stdout (final_world (run_main c stack)) = lines c catalog /\
  count_char newline (stdout (final_world (run_main c stack))) = 45%nat.
Proof.
  intros Hsize.
  split; [reflexivity|]. split; [reflexivity|]. split; [reflexivity|].
  split.
  - assert (E : nodup field_eq_dec declared_fields = declared_fields)
      by (vm_compute; reflexivity).
    rewrite <- E. apply NoDup_nodup.
  - rewrite main_run_ok by exact Hsize. simpl final_world. simpl stdout.
    split; [reflexivity|].
    now rewrite count_newline_lines by exact catalog_decls_one_line.
Qed.

Lemma driver_walks_catalog_once_witness :
  sizeof_jvmtiCapabilities msb_first = 16%N /\
  count_char newline (stdout (final_world (run_main msb_first dirty_stack)))
    = 45%nat.
Proof.
  split; [reflexivity|].
  apply (driver_walks_catalog_once msb_first dirty_stack eq_refl).
Defined.




(** C8: when the image scanned for a flag has no nonzero byte, [dbg]
    prints only the delimiter and the newline, so the line of the flag
    has no literal after the equals sign; the flags after it are still
    printed and the exit status is zero. *)
Theorem empty_probe_prints_bare_delimiter (c : compiler) (stack : nat -> byte)
    (pre post : list (string * field)) (decl : string) (f : field) :
  sizeof_jvmtiCapabilities c = 16%N ->
  catalog = (pre ++ (decl, f) :: post)%list ->
  (forall i, (i < 16)%nat -> nth i (field_image c f) x00 = x00) ->
  dbg_literal (field_image c f) = "" /\
  Hex.literal_value (dbg_literal (field_image c f)) = None /\
  stdout (final_world (run_main c stack)) =
    lines c pre ++ (decl ++ String ";" (String newline "")) ++ lines c post /\
  exit_status (run_main c stack) = 0.
Proof.
  intros Hsize Hcat Hzero.
  assert (Hlit : dbg_literal (field_image c f) = "").
  { unfold dbg_literal. now rewrite scan_zero by exact Hzero. }
  split; [exact Hlit|]. split; [now rewrite Hlit|].
  rewrite main_run_ok by exact Hsize. simpl final_world. simpl stdout.
  split; [|reflexivity].
  rewrite Hcat, lines_app, lines_cons. unfold line at 1. simpl fst. simpl snd.
  unfold dbg_text. now rewrite Hlit.
Qed.

Lemma empty_probe_prints_bare_delimiter_witness :
  stdout (final_world (run_main odd_layout zero_stack)) =
    ("pub const OFFSET_CAN_TAG_OBJECTS : usize = ;" ++ String newline "")
      ++ lines odd_layout (tl catalog) /\
  exit_status (run_main odd_layout zero_stack) = 0.
Proof.
  assert (Hzero : forall i, (i < 16)%nat ->
            nth i (field_image odd_layout can_tag_objects) x00 = x00).
  { intros i Hi. do 16 (destruct i as [|i]; [reflexivity|]). lia. }
  pose proof (empty_probe_prints_bare_delimiter odd_layout zero_stack
                [] (tl catalog)
                "pub const OFFSET_CAN_TAG_OBJECTS : usize = " can_tag_objects
                eq_refl eq_refl Hzero) as [_ [_ [Hout Hstatus]]].
  split; [exact Hout | exact Hstatus].
Defined.

(** C9: when the image has more than one nonzero byte, [dbg] returns
    after printing, with nothing in between, one chunk for each nonzero
    byte in strictly ascending order of offset, and then the delimiter;
    a chunk is 0x, two hexadecimal digits of the offset and two of the
    byte. *)
Theorem several_bytes_are_concatenated (n : list byte) (w : world) :
  (1 < List.length (scan n))%nat ->
  dbg n w =
    Returned tt (mkWorld (stdout w ++ text_of (map chunk (scan n))
                                   ++ String ";" (String newline ""))
                         (cap w)) /\
  StronglySorted lt (map fst (scan n)) /\
  (forall i b, In (i, b) (scan n) <->
               (i < 16)%nat /\ nth i n x00 = b /\ b <> x00) /\
  (forall i b, In (i, b) (scan n) ->
     chunk (i, b) =
       String "0" (String "x"
         (String "0" (String (Hex.hex_upper (Z.of_nat i))
         (String (Hex.hex_upper (byte_val b / 16))
                 (String (Hex.hex_upper (byte_val b mod 16)) ""))))) /\
     Hex.literal_value (chunk (i, b)) = Some (256 * Z.of_nat i + byte_val b)).
Proof.
  intros _. split; [|split; [|split]].
  - rewrite dbg_run. reflexivity.
  - apply scan_from_sorted.
  - intros i b. apply scan_spec.
  - intros i b Hin. apply scan_spec in Hin. destruct Hin as [Hi _].
    split; [apply chunk_digits | apply chunk_value]; exact Hi.
Qed.

Lemma several_bytes_are_concatenated_witness :
  (1 < List.length (scan [x80; x01; x00; x00; x00; x00; x00; x00;
                          x00; x00; x00; x00; x00; x00; x00; x24]))%nat /\
  dbg [x80; x01; x00; x00; x00; x00; x00; x00;
       x00; x00; x00; x00; x00; x00; x00; x24] initial_world =
    Returned tt (mkWorld ("0x00800x01010x0F24;" ++ String newline "") []).
Proof.
  split; [vm_compute; lia|].
  apply (several_bytes_are_concatenated
           [x80; x01; x00; x00; x00; x00; x00; x00;
            x00; x00; x00; x00; x00; x00; x00; x24] initial_world).
  vm_compute. lia.
Defined.

(** * Further properties of [dbg] and [main] *)

(** ** Text and bytes *)

Lemma string_length_app (a b : string) :
  String.length (a ++ b) = (String.length a + String.length b)%nat.
Proof.
  induction a as [|x a IH]; simpl; [reflexivity | now rewrite IH].
Qed.

Lemma append_same_length_inv (a b x y : string) :
  String.length a = String.length b ->
  a ++ x = b ++ y -> a = b /\ x = y.
Proof.
  revert b. induction a as [|c a IH]; intros [|d b] Hlen H;
    simpl in Hlen; try discriminate Hlen.
  - split; [reflexivity | exact H].
  - simpl in H. inversion H; subst.
    destruct (IH b) as [-> ->]; [lia | assumption | split; reflexivity].
Qed.

Lemma byte_val_inj (a b : byte) : byte_val a = byte_val b -> a = b.
Proof.
  unfold byte_val. intros H. apply N2Z.inj in H.
  pose proof (Byte.of_to_N a) as Ha. pose proof (Byte.of_to_N b) as Hb.
  rewrite H in Ha. congruence.
Qed.

Lemma chunk_length (i : nat) (b : byte) :
  (i < 16)%nat -> String.length (chunk (i, b)) = 6%nat.
Proof. intros H. now rewrite chunk_digits by exact H. Qed.

Lemma chunk_inj (i i' : nat) (b b' : byte) :
  (i < 16)%nat -> (i' < 16)%nat ->
  chunk (i, b) = chunk (i', b') -> i = i' /\ b = b'.
Proof.
  intros Hi Hi' H.
  assert (Hv : Hex.literal_value (chunk (i, b)) =
               Hex.literal_value (chunk (i', b'))) by now rewrite H.
  rewrite !chunk_value in Hv by assumption.
  pose proof (byte_val_range b). pose proof (byte_val_range b').
  assert (Hv' : 256 * Z.of_nat i + byte_val b =
                256 * Z.of_nat i' + byte_val b') by congruence.
  split; [lia|]. apply byte_val_inj. lia.
Qed.

(** Chunks have a fixed width and never start with the delimiter, so a
    run of chunks can be read back from the text in front of it. *)
Lemma chunks_cancel (l1 l2 : list (nat * byte)) (s1 s2 : string) :
  (forall p, In p l1 -> (fst p < 16)%nat) ->
  (forall p, In p l2 -> (fst p < 16)%nat) ->
  text_of (map chunk l1) ++ String ";" s1 =
  text_of (map chunk l2) ++ String ";" s2 ->
  l1 = l2 /\ s1 = s2.
Proof.
  revert l2. induction l1 as [|[i b] l1 IH]; intros [|[i' b'] l2] H1 H2 H.
  - simpl in H. inversion H. split; reflexivity.
  - exfalso. cbn [map text_of] in H.
    rewrite chunk_digits in H by (apply (H2 (i', b')); now left).
    simpl in H. discriminate H.
  - exfalso. cbn [map text_of] in H.
    rewrite chunk_digits in H by (apply (H1 (i, b)); now left).
    simpl in H. discriminate H.
  - assert (Hi : (i < 16)%nat) by (apply (H1 (i, b)); now left).
    assert (Hi' : (i' < 16)%nat) by (apply (H2 (i', b')); now left).
    cbn [map text_of] in H. rewrite !append_assoc in H.
    apply append_same_length_inv in H;
      [|now rewrite !chunk_length by assumption].
    destruct H as [Hc Hrest].
    apply chunk_inj in Hc; [|assumption..]. destruct Hc as [-> ->].
    destruct (IH l2) as [-> ->].
    + intros p Hp. apply H1. now right.
    + intros p Hp. apply H2. now right.
    + exact Hrest.
    + split; reflexivity.
Qed.

Lemma scan_offsets_bound (n : list byte) (p : nat * byte) :
  In p (scan n) -> (fst p < 16)%nat.
Proof.
  destruct p as [i b]. intros H. apply scan_spec in H. simpl. tauto.
Qed.

Lemma scan_determines (n1 n2 : list byte) :
  scan n1 = scan n2 ->
  forall i, (i < 16)%nat -> nth i n1 x00 = nth i n2 x00.
Proof.
  intros E i Hi.
  destruct (Z.eq_dec (byte_val (nth i n1 x00)) 0) as [Hz1|Hnz1].
  - destruct (Z.eq_dec (byte_val (nth i n2 x00)) 0) as [Hz2|Hnz2].
    + apply byte_val_zero in Hz1, Hz2. congruence.
    + assert (Hin : In (i, nth i n2 x00) (scan n2)).
      { apply scan_spec. repeat split; [exact Hi|].
        intros Hb. apply Hnz2. now rewrite Hb. }
      rewrite <- E in Hin. apply scan_spec in Hin. tauto.
  - assert (Hin : In (i, nth i n1 x00) (scan n1)).
    { apply scan_spec. repeat split; [exact Hi|].
      intros Hb. apply Hnz1. now rewrite Hb. }
    rewrite E in Hin. apply scan_spec in Hin.
    destruct Hin as (_ & Hb & _). now rewrite Hb.
Qed.

Lemma scan_ext (n1 n2 : list byte) :
  (forall i, (i < 16)%nat -> nth i n1 x00 = nth i n2 x00) ->
  scan n1 = scan n2.
Proof.
  intros H. unfold scan.
  assert (Hall : forall i, In i (seq 0 16) -> scan_at n1 i = scan_at n2 i).
  { intros i Hi. apply in_seq in Hi. unfold scan_at.
    now rewrite H by lia. }
  induction (seq 0 16) as [|i l IH]; simpl; [reflexivity|].
  rewrite Hall by now left. rewrite IH; [reflexivity|].
  intros j Hj. apply Hall. now right.
Qed.

Lemma scan_from_length (n : list byte) (l : list nat) :
  (List.length (flat_map (scan_at n) l) <= List.length l)%nat.
Proof.
  induction l as [|i l IH]; simpl; [lia|].
  rewrite length_app. unfold scan_at at 1.
  destruct (byte_val (nth i n x00) =? 0); simpl; lia.
Qed.

Lemma chunks_length (l : list (nat * byte)) :
  (forall p, In p l -> (fst p < 16)%nat) ->
  String.length (text_of (map chunk l)) = (6 * List.length l)%nat.
Proof.
  induction l as [|[i b] l IH]; intros H; [reflexivity|].
  cbn [map text_of List.length].
  rewrite string_length_app, chunk_length, IH.
  - lia.
  - intros p Hp. apply H. now right.
  - apply (H (i, b)). now left.
Qed.

Lemma field_in_catalog (f : field) : In f (map snd catalog).
Proof.
  assert (H : existsb (field_beq f) (map snd catalog) = true)
    by (destruct f; reflexivity).
  apply existsb_exists in H. destruct H as [g [Hin Heq]].
  apply internal_field_dec_bl in Heq. now subst g.
Qed.

Lemma lines_determine_scans (c1 c2 : compiler) (l : list (string * field)) :
  lines c1 l = lines c2 l ->
  forall e, In e l ->
    scan (field_image c1 (snd e)) = scan (field_image c2 (snd e)).
Proof.
  induction l as [|[decl f] l IH]; intros H e He; [contradiction|].
  rewrite !lines_cons in H. unfold line, dbg_text, dbg_literal in H.
  cbn [fst snd] in H. rewrite !append_assoc in H.
  apply append_inj_l in H. cbn [append] in H.
  apply chunks_cancel in H; try (intros p; apply scan_offsets_bound).
  destruct H as [Hscan Hrest]. injection Hrest as Hrest.
  destruct He as [<-|He]; [exact Hscan | now apply IH].
Qed.

Lemma pow2_byte (r : nat) :
  (r < 8)%nat ->
  byte_val (byte_of_Z (2 ^ Z.of_nat r)) = 2 ^ Z.of_nat r /\
  single_bit (byte_of_Z (2 ^ Z.of_nat r)) = true.
Proof.
  intros H. do 8 (destruct r as [|r]; [split; reflexivity|]). lia.
Qed.

Lemma layout_image (pos : field -> nat) (f : field) :
  field_image (layout_compiler pos) f =
  image_of (pos f / 8) (byte_of_Z (2 ^ Z.of_nat (pos f mod 8))).
Proof. reflexivity. Qed.

(** The line main prints for a field that sits in one byte. *)
Lemma single_byte_line (c : compiler) (decl : string) (f : field)
    (offset : nat) (mask : byte) :
  (offset < 16)%nat -> mask <> x00 ->
  field_image c f = image_of offset mask ->
  line c (decl, f) =
  decl ++ chunk (offset, mask) ++ String ";" (String newline "").
Proof.
  intros Hoff Hmask Himg. unfold line, dbg_text, dbg_literal.
  cbn [fst snd]. rewrite Himg, scan_image_of by assumption.
  cbn [map text_of]. now rewrite append_nil_r.
Qed.

(** ** dbg *)

(** The text [dbg] prints determines the first sixteen bytes of the
    object it was given, and nothing else of the object reaches it. *)
Theorem dbg_output_determines_bytes (n1 n2 : list byte) (w : world) :
  dbg n1 w = dbg n2 w <->
  (forall i, (i < 16)%nat -> nth i n1 x00 = nth i n2 x00).
Proof.
  rewrite !dbg_run. split.
  - intros H. injection H as H. apply append_inj_l in H.
    unfold dbg_text, dbg_literal in H.
    apply chunks_cancel in H; try (intros p; apply scan_offsets_bound).
    apply scan_determines. tauto.
  - intros H. unfold dbg_text, dbg_literal.
    now rewrite (scan_ext n1 n2 H).
Qed.

(** [dbg] leaves the object as it is and prints six characters for each
    nonzero byte among the first sixteen, then two more: between 2 and 98
    characters in all. *)
Theorem dbg_output_size (n : list byte) (w : world) :
  cap (final_world (dbg n w)) = cap w /\
  String.length (stdout (final_world (dbg n w))) =
    (String.length (stdout w) + 6 * List.length (scan n) + 2)%nat /\
  (List.length (scan n) <= 16)%nat /\
  (String.length (stdout w) + 2 <=
     String.length (stdout (final_world (dbg n w))) <=
   String.length (stdout w) + 98)%nat.
Proof.
  assert (Hlen : (List.length (scan n) <= 16)%nat)
    by apply (scan_from_length n (seq 0 16)).
  assert (Hout : String.length (stdout (final_world (dbg n w))) =
            (String.length (stdout w) + 6 * List.length (scan n) + 2)%nat).
  { rewrite dbg_run. cbn [final_world stdout].
    unfold dbg_text, dbg_literal.
    rewrite !string_length_app, chunks_length
      by (intros p; apply scan_offsets_bound).
    simpl. lia. }
  split; [now rewrite dbg_run|]. split; [exact Hout|].
  split; [exact Hlen|]. rewrite Hout. lia.
Qed.

(** For an object whose only nonzero byte is [b] at [offset], the
    literal [dbg] prints is decoded by a shift and a mask: its value
    shifted right by 8 is the offset and its low byte is [b], which is
    never zero. *)
Theorem single_byte_round_trip (offset : nat) (b : byte) (w : world) :
  (offset < 16)%nat ->
  b <> x00 ->
  dbg (image_of offset b) w =
    Returned tt (mkWorld (stdout w ++ chunk (offset, b)
                                   ++ String ";" (String newline ""))
                         (cap w)) /\
  Hex.literal_value (chunk (offset, b)) =
    Some (256 * Z.of_nat offset + byte_val b) /\
  Z.shiftr (256 * Z.of_nat offset + byte_val b) 8 = Z.of_nat offset /\
  Z.land (256 * Z.of_nat offset + byte_val b) 255 = byte_val b /\
  Z.land (256 * Z.of_nat offset + byte_val b) 255 <> 0.
Proof.
  intros Hoff Hb. pose proof (byte_val_range b) as Hr.
  assert (Hland : Z.land (256 * Z.of_nat offset + byte_val b) 255
                  = byte_val b).
  { change 255 with (Z.ones 8). rewrite Z.land_ones by lia.
    change (2 ^ 8) with 256. symmetry.
    apply Z.mod_unique with (q := Z.of_nat offset); lia. }
  split; [|split; [|split; [|split]]].
  - rewrite dbg_run. unfold dbg_text, dbg_literal.
    rewrite scan_image_of by assumption.
    cbn [map text_of]. now rewrite append_nil_r.
  - apply chunk_value, Hoff.
  - rewrite Z.shiftr_div_pow2 by lia. change (2 ^ 8) with 256.
    symmetry. apply Z.div_unique with (r := byte_val b); lia.
  - exact Hland.
  - rewrite Hland. intros Hz. apply byte_val_zero in Hz. contradiction.
Qed.

Lemma single_byte_round_trip_witness :
  (3 < 16)%nat /\ xa5 <> x00 /\
  dbg (image_of 3 xa5) initial_world =
    Returned tt (mkWorld ("0x03A5;" ++ String newline "") []) /\
  Hex.literal_value "0x03A5" = Some 0x03A5 /\
  Z.shiftr 0x03A5 8 = 3 /\ Z.land 0x03A5 255 = 0xA5.
Proof.
  split; [lia|]. split; [discriminate|].
  pose proof (single_byte_round_trip 3 xa5 initial_world
                ltac:(lia) ltac:(discriminate))
    as [Hrun [Hval [Hshift [Hland _]]]].
  split; [exact Hrun|]. split; [exact Hval|].
  split; [exact Hshift | exact Hland].
Defined.

(** ** main *)

(** For every flag whose field the compiler keeps in one byte, main
    prints, after the lines of the flags declared before it and before
    those of the flags declared after it, the declaration followed by
    0x, the offset and the byte in two hexadecimal digits each, and the
    delimiter; the literal has the value 256 * offset + byte. *)
Theorem single_byte_field_line (c : compiler) (stack : nat -> byte)
    (pre post : list (string * field)) (decl : string) (f : field)
    (offset : nat) (mask : byte) :
  sizeof_jvmtiCapabilities c = 16%N ->
  catalog = (pre ++ (decl, f) :: post)%list ->
  (offset < 16)%nat ->
  mask <> x00 ->
  (forall i, (i < 16)%nat ->
     field_bits c f i = if (i =? offset)%nat then mask else x00) ->
  stdout (final_world (run_main c stack)) =
    lines c pre
    ++ (decl ++ chunk (offset, mask) ++ String ";" (String newline ""))
    ++ lines c post /\
  Hex.literal_value (chunk (offset, mask)) =
    Some (256 * Z.of_nat offset + byte_val mask).
Proof.
  intros Hsize Hcat Hoff Hmask Hbits.
  assert (Himg : field_image c f = image_of offset mask).
  { unfold field_image, image_of. apply map_ext_in.
    intros i Hi. apply in_seq in Hi. apply Hbits. lia. }
  split; [|apply chunk_value, Hoff].
  rewrite main_run_ok by exact Hsize. cbn [final_world stdout].
  rewrite Hcat, lines_app, lines_cons.
  now rewrite (single_byte_line c decl f offset mask) by assumption.
Qed.

Lemma single_byte_field_line_witness :
  stdout (final_world (run_main msb_first dirty_stack)) =
    lines msb_first (firstn 20 catalog)
    ++ ("pub const OFFSET_CAN_SUSPEND : usize = 0x0208;" ++ String newline "")
    ++ lines msb_first (skipn 21 catalog) /\
  Hex.literal_value "0x0208" = Some (256 * 2 + 8).
Proof.
  assert (Hbits : forall i, (i < 16)%nat ->
            field_bits msb_first can_suspend i =
            if (i =? 2)%nat then x08 else x00).
  { intros i Hi. do 16 (destruct i as [|i]; [reflexivity|]). lia. }
  exact (single_byte_field_line msb_first dirty_stack
           (firstn 20 catalog) (skipn 21 catalog)
           "pub const OFFSET_CAN_SUSPEND : usize = " can_suspend 2 x08
           eq_refl eq_refl ltac:(lia) ltac:(discriminate) Hbits).
Defined.

(** On every conforming layout, one that gives each field a single bit
    inside the sixteen bytes, the block of main for a field leaves an
    object with exactly one nonzero byte that has exactly one bit set,
    and prints the declaration and the literal of value
    256 * (pos / 8) + 2 ^ (pos mod 8); that line stands in the output of
    the run between the lines of the flags before and after it, and two
    fields at different bit positions get different values. *)
Theorem conforming_layout_is_measured (pos : field -> nat)
    (stack : nat -> byte) (w : world)
    (pre post : list (string * field)) (decl : string) (f g : field) :
  (pos f < 128)%nat ->
  (pos g < 128)%nat ->
  List.length (cap w) = 16%nat ->
  catalog = (pre ++ (decl, f) :: post)%list ->
  let c := layout_compiler pos in
  let value h := 256 * Z.of_nat (pos h / 8) + 2 ^ Z.of_nat (pos h mod 8) in
  let found := (pos f / 8, byte_of_Z (2 ^ Z.of_nat (pos f mod 8)))%nat in
  probe c decl f w =
    Returned tt (mkWorld (stdout w ++ decl ++ chunk found
                                   ++ String ";" (String newline ""))
                         (image_of (fst found) (snd found))) /\
  consistent (image_of (fst found) (snd found)) = true /\
  stdout (final_world (run_main c stack)) =
    lines c pre
    ++ (decl ++ chunk found ++ String ";" (String newline ""))
    ++ lines c post /\
  Hex.literal_value (chunk found) = Some (value f) /\
  (pos f <> pos g -> value f <> value g).
Proof.
  intros Hf Hg Hlen Hcat c value found.
  assert (Hq : (pos f / 8 < 16)%nat)
    by (apply Nat.Div0.div_lt_upper_bound; lia).
  assert (Hr : (pos f mod 8 < 8)%nat) by (apply Nat.mod_upper_bound; lia).
  destruct (pow2_byte (pos f mod 8) Hr) as [Hval Hbit].
  assert (Hnz : byte_of_Z (2 ^ Z.of_nat (pos f mod 8)) <> x00)
    by (apply single_bit_nonzero, Hbit).
  assert (Hscan : scan (field_image c f) = [found]).
  { unfold c, found. rewrite layout_image. now apply scan_image_of. }
  assert (Hline : line c (decl, f) =
            decl ++ chunk found ++ String ";" (String newline "")).
  { apply single_byte_line; [exact Hq | exact Hnz | reflexivity]. }
  split; [|split; [|split; [|split]]].
  - rewrite probe_run by (assumption || reflexivity).
    unfold line in Hline. cbn [fst snd] in Hline. now rewrite Hline.
  - change (image_of (fst found) (snd found)) with (field_image c f).
    unfold consistent. rewrite Hscan. exact Hbit.
  - rewrite main_run_ok by reflexivity. cbn [final_world stdout].
    now rewrite Hcat, lines_app, lines_cons, Hline.
  - unfold found. rewrite chunk_value by exact Hq.
    unfold value. now rewrite Hval.
  - intros Hne Heq. apply Hne. unfold value in Heq.
    assert (Hr' : (pos g mod 8 < 8)%nat) by (apply Nat.mod_upper_bound; lia).
    rewrite (Nat.div_mod_eq (pos f) 8), (Nat.div_mod_eq (pos g) 8).
    revert Heq Hr Hr'.
    generalize (pos f / 8)%nat (pos f mod 8)%nat
               (pos g / 8)%nat (pos g mod 8)%nat.
    intros q r q' r' Heq Hr Hr'.
    remember (2 ^ Z.of_nat r) as p eqn:Ep.
    remember (2 ^ Z.of_nat r') as p' eqn:Ep'.
    do 8 (destruct r as [|r];
          [do 8 (destruct r' as [|r'];
                 [vm_compute in Ep, Ep'; lia|]); lia|]).
    lia.
Qed.

Lemma conforming_layout_is_measured_witness :
  stdout (final_world (run_main lsb_first dirty_stack)) =
    lines lsb_first (firstn 20 catalog)
    ++ ("pub const OFFSET_CAN_SUSPEND : usize = 0x0210;" ++ String newline "")
    ++ lines lsb_first (skipn 21 catalog) /\
  Hex.literal_value "0x0210" = Some 0x0210 /\
  (20%nat <> 8%nat -> 0x0210 <> 0x0101).
Proof.
  pose proof (conforming_layout_is_measured
                (fun h => index_of h declared_fields) dirty_stack
                (mkWorld "" (map dirty_stack (seq 0 16)))
                (firstn 20 catalog) (skipn 21 catalog)
                "pub const OFFSET_CAN_SUSPEND : usize = "
                can_suspend can_pop_frame
                ltac:(vm_compute; lia) ltac:(vm_compute; lia)
                eq_refl eq_refl) as [_ [_ H]].
  exact H.
Defined.

(** The output of a run tells the whole layout: two compilers for which
    the size check passes print the same text exactly when they put
    every field on the same bits of the sixteen bytes. *)
Theorem output_determines_layout (c1 c2 : compiler)
    (stack1 stack2 : nat -> byte) :
  sizeof_jvmtiCapabilities c1 = 16%N ->
  sizeof_jvmtiCapabilities c2 = 16%N ->
  stdout (final_world (run_main c1 stack1)) =
  stdout (final_world (run_main c2 stack2)) <->
  (forall f i, (i < 16)%nat -> field_bits c1 f i = field_bits c2 f i).
Proof.
  intros H1 H2. rewrite !main_run_ok by assumption.
  cbn [final_world stdout]. split.
  - intros Hout f i Hi.
    pose proof (field_in_catalog f) as Hin.
    apply in_map_iff in Hin. destruct Hin as [e [Hf He]].
    pose proof (lines_determine_scans c1 c2 catalog Hout e He) as Hscan.
    rewrite Hf in Hscan.
    pose proof (scan_determines _ _ Hscan i Hi) as Hnth.
    now rewrite !field_image_nth in Hnth by exact Hi.
  - intros Hbits. unfold lines. f_equal. apply map_ext.
    intros [decl f]. unfold line. cbn [fst snd]. do 2 f_equal.
    unfold field_image. apply map_ext_in.
    intros i Hi. apply in_seq in Hi. apply Hbits. lia.
Qed.

Lemma output_determines_layout_witness :
  stdout (final_world (run_main lsb_first zero_stack)) <>
  stdout (final_world (run_main msb_first zero_stack)).
Proof.
  intros Hout.
  pose proof (proj1 (output_determines_layout lsb_first msb_first
                       zero_stack zero_stack eq_refl eq_refl)
                    Hout can_tag_objects 0%nat ltac:(lia)) as Hbits.
  vm_compute in Hbits. discriminate Hbits.
Defined.

(** ** When the printed right-hand side is a literal *)



